(** * TaskExecutionAbciApp: the rounds of the task execution skill

    A shallow embedding of
    [packages/valory/skills/task_execution_abci/rounds.py]:
    the [Event] enumeration, the synchronized data, the
    [TaskExecutionRound.end_block] decision procedure and the transition
    table of [TaskExecutionAbciApp].

    Python values are modelled by an inductive type, Python dictionaries by
    association lists in insertion order, the key-value database of the
    synchronized data by a [gmap], and exceptions by an explicit error
    result. *)

From Stdlib Require Import Ascii.
From stdpp Require Import base strings list gmap.

Set Warnings "-register-all".
Local Open Scope string_scope.
Local Open Scope list_scope.
Local Open Scope nat_scope.

(** ** Python values, exceptions and results *)

(** The values [json.loads] can return; they are also the values stored in
    the database of the synchronized data. A float is kept as its literal. *)
Inductive value : Type :=
| VNone
| VBool (b : bool)
| VInt (z : Z)
| VFloat (lit : string)
| VStr (s : string)
| VList (items : list value)
| VDict (entries : list (string * value)).

(** The exceptions [end_block] can let escape. [JSONDecodeError] stands for
    whatever [json.loads] raises when it fails: a [JSONDecodeError] on a
    text that is not JSON, and the [ValueError] or [RecursionError] the
    library raises on an oversized number or nesting. The model does not
    tell these apart. *)
Inductive exn : Type :=
| IndexError
| JSONDecodeError
| KeyError (key : string)
| TypeError.

Inductive result (A : Type) : Type :=
| Return (a : A)
| Raise (e : exn).

Arguments Return {A} a.
Arguments Raise {A} e.

#[global] Instance result_ret : MRet result := @Return.
#[global] Instance result_bind : MBind result := λ A B k m,
  match m with
  | Return a => k a
  | Raise e => Raise e
  end.

(** [[f(x) for x in xs]]: the elements are evaluated from left to right and
    the first exception aborts the comprehension. *)
Fixpoint comprehension {A B : Type} (f : A → result B) (xs : list A)
  : result (list B) :=
  match xs with
  | [] => Return []
  | x :: xs' => y ← f x; ys ← comprehension f xs'; Return (y :: ys)
  end.

Definition raises {A : Type} (m : result A) : Prop :=
  match m with
  | Return _ => False
  | Raise _ => True
  end.

(** ** Dictionaries

    A Python [dict] keeps its keys in insertion order; assigning to a key
    that is present replaces the value in place. *)
Module Dict.

Abbreviation t V := (list (string * V)) (only parsing).

Fixpoint setitem {V : Type} (k : string) (v : V) (d : t V) : t V :=
  match d with
  | [] => [(k, v)]
  | (k', v') :: d' =>
      if String.eqb k' k then (k, v) :: d' else (k', v') :: setitem k v d'
  end.

Fixpoint get {V : Type} (k : string) (d : t V) : option V :=
  match d with
  | [] => None
  | (k', v') :: d' => if String.eqb k' k then Some v' else get k d'
  end.

(** [d[k]] *)
Definition getitem {V : Type} (k : string) (d : t V) : result V :=
  match get k d with
  | Some v => Return v
  | None => Raise (KeyError k)
  end.

(** [list(d)] *)
Definition keys {V : Type} (d : t V) : list string := d.*1.

(** [d.values()] *)
Definition values {V : Type} (d : t V) : list V := d.*2.

(** The well-formedness of a dictionary: no key occurs twice. *)
Definition wf {V : Type} (d : t V) : Prop := NoDup (keys d).

End Dict.

(** [xs[0]] on a list. *)
Definition first {A : Type} (xs : list A) : result A :=
  match xs with
  | [] => Raise IndexError
  | x :: _ => Return x
  end.

(** [v[key]] for a string [key] on a decoded JSON value: only a dictionary
    can be subscripted by a string. *)
Definition subscript (v : value) (key : string) : result value :=
  match v with
  | VDict entries => Dict.getitem key entries
  | _ => Raise TypeError
  end.

(** ** Events, payloads and synchronized data *)

Inductive Event : Type :=
| ROUND_TIMEOUT
| NO_MAJORITY
| DONE
| ERROR.

Definition Event_value (e : Event) : string :=
  match e with
  | ROUND_TIMEOUT => "round_timeout"
  | NO_MAJORITY => "no_majority"
  | DONE => "done"
  | ERROR => "error"
  end.

(** A payload of the round: who sent it and what it says. *)
Record TaskExecutionAbciPayload : Type := mkPayload {
  sender : string;
  content : string
}.

(** The synchronized data: the replicated database together with the two
    participant counts the round reads from it. *)
Record SynchronizedData : Type := mkSynchronizedData {
  db : gmap string value;
  max_participants : nat;
  nb_participants : nat
}.

(** [get_name(SynchronizedData.finished_task_data)] *)
Definition finished_task_data_name : string := "finished_task_data".

(** Modelled from the spec: [db.get_strict] of the base package, which is
    said to fail loudly, not to default, when the key was never set. *)
Definition get_strict (key : string) (sd : SynchronizedData) : result value :=
  match db sd !! key with
  | Some v => Return v
  | None => Raise (KeyError key)
  end.

Definition finished_task_data (sd : SynchronizedData) : result value :=
  get_strict finished_task_data_name sd.

(** Modelled from the spec: [BaseSynchronizedData.update] of the base
    package, said to be a copy-on-write update: it returns a new snapshot
    with the given fields written and does not change the receiver. The
    first component is the receiver after the call, the second the snapshot
    returned. *)
Definition update (sd : SynchronizedData) (kwargs : Dict.t value)
  : SynchronizedData * SynchronizedData :=
  (sd,
   {| db := foldl (fun m kv => <[kv.1 := kv.2]> m) (db sd) kwargs;
      max_participants := max_participants sd;
      nb_participants := nb_participants sd |}).

(** ** The round *)

(** The state of a [TaskExecutionRound] instance: the payloads collected so
    far, keyed by sender, and the synchronized data it was entered with. *)
Record RoundState : Type := mkRound {
  collection : Dict.t TaskExecutionAbciPayload;
  synchronized_data : SynchronizedData
}.

Definition ERROR_PAYLOAD : string := "error".

(** Modelled from the spec: [collection_threshold_reached] of the
    collect-until-all base round, true iff the collection holds as many
    entries as [nb_participants]. *)
Definition collection_threshold_reached (self : RoundState) : bool :=
  bool_decide (length (collection self) = nb_participants (synchronized_data self)).

(** One iteration of the loop over [self.collection.items()]; the
    accumulator is [(num_errors, ok_payloads)]. *)
Definition classify (acc : nat * Dict.t TaskExecutionAbciPayload)
    (item : string * TaskExecutionAbciPayload)
  : nat * Dict.t TaskExecutionAbciPayload :=
  if String.eqb (content item.2) ERROR_PAYLOAD
  then (S acc.1, acc.2)
  else (acc.1, Dict.setitem item.1 item.2 acc.2).

Definition count_and_split (c : Dict.t TaskExecutionAbciPayload)
  : nat * Dict.t TaskExecutionAbciPayload :=
  foldl classify (0, []) c.

Section Round.

(** [json.loads] of the Python standard library, [None] standing for a
    call that raises; and [is_majority_possible] of the base round. *)
Variable loads : string → option value.
Variable is_majority_possible :
  Dict.t TaskExecutionAbciPayload → nat → bool.

Definition json_loads (s : string) : result value :=
  match loads s with
  | Some v => Return v
  | None => Raise JSONDecodeError
  end.

(** [json.loads(f.content)[key]] *)
Definition field (key : string) (f : TaskExecutionAbciPayload)
  : result value :=
  v ← json_loads (content f); subscript v key.

(** The dictionary display bound to [payloads_json]: its values are
    evaluated in the order they are written. *)
Definition payloads_json (ok_payloads : Dict.t TaskExecutionAbciPayload)
  : result value :=
  k ← first (Dict.keys ok_payloads);
  p ← Dict.getitem k ok_payloads;
  request_id ← field "request_id" p;
  task_result ← comprehension (field "task_result") (Dict.values ok_payloads);
  Return (VDict [("request_id", request_id);
                 ("task_result", VList task_result)]).

Definition Outcome : Type := result (option (SynchronizedData * Event)).

(** [TaskExecutionRound.end_block]: the round after the call and what the
    call returned or raised. *)
Definition end_block (self : RoundState) : RoundState * Outcome :=
  if collection_threshold_reached self then
    let '(num_errors, ok_payloads) := count_and_split (collection self) in
    if bool_decide (num_errors = max_participants (synchronized_data self))
    then (self, Return (Some (synchronized_data self, ERROR)))
    else
      match payloads_json ok_payloads with
      | Raise e => (self, Raise e)
      | Return pj =>
          let '(sd_self, sd_new) :=
            update (synchronized_data self) [(finished_task_data_name, pj)] in
          ({| collection := collection self; synchronized_data := sd_self |},
           Return (Some (sd_new, DONE)))
      end
  else if negb (is_majority_possible (collection self)
                  (nb_participants (synchronized_data self)))
  then (self, Return (Some (synchronized_data self, NO_MAJORITY)))
  else (self, Return None).

End Round.

(** ** The application: rounds and transition table *)

(** The round classes the application refers to. *)
Inductive AppState : Type :=
| TaskExecutionRound
| FinishedTaskExecutionRound
| FinishedTaskExecutionWithErrorRound.

#[global] Instance AppState_eq_dec : EqDecision AppState.
Proof. solve_decision. Defined.

#[global] Instance Event_eq_dec : EqDecision Event.
Proof. solve_decision. Defined.

(** Lookup in a dictionary keyed by a class or an enumeration member. *)
Fixpoint assoc {K V : Type} `{!EqDecision K} (k : K) (d : list (K * V))
  : option V :=
  match d with
  | [] => None
  | (k', v) :: d' => if decide (k' = k) then Some v else assoc k d'
  end.

Module TaskExecutionAbciApp.

Definition initial_round_cls : AppState := TaskExecutionRound.

Definition initial_states : list AppState := [TaskExecutionRound].

Definition transition_function : list (AppState * list (Event * AppState)) :=
  [ (TaskExecutionRound,
      [ (DONE, FinishedTaskExecutionRound);
        (NO_MAJORITY, TaskExecutionRound);
        (ROUND_TIMEOUT, TaskExecutionRound);
        (ERROR, FinishedTaskExecutionWithErrorRound) ]);
    (FinishedTaskExecutionRound, []);
    (FinishedTaskExecutionWithErrorRound, []) ].

Definition final_states : list AppState :=
  [FinishedTaskExecutionRound; FinishedTaskExecutionWithErrorRound].

(** The timeouts are durations in seconds; the table has no entry. *)
Definition event_to_timeout : list (Event * Z) := [].

(** The round that follows [s] on event [e], if the table has one. *)
Definition next_round (s : AppState) (e : Event) : option AppState :=
  row ← assoc s transition_function; assoc e row.

Definition cross_period_persisted_keys : list string := [].

(** The keys each initial round requires of the database, and the keys each
    final round promises. *)
Definition db_pre_conditions : list (AppState * list string) :=
  [ (TaskExecutionRound, []) ].

Definition db_post_conditions : list (AppState * list string) :=
  [ (FinishedTaskExecutionRound, []);
    (FinishedTaskExecutionWithErrorRound, []) ].

End TaskExecutionAbciApp.

(** ** A decoder for a fragment of JSON

    The theorems on [end_block] hold for every decoder. The examples run on
    this one, which reads objects, arrays, strings without escapes, integers
    and the three literals, and on the encoder that is its inverse on them. *)
Module JsonFragment.

Local Open Scope char_scope.

Definition dquote : ascii := "034".
Definition backslash : ascii := "092".

Definition is_ws (c : ascii) : bool :=
  Ascii.eqb c " " || Ascii.eqb c "009" || Ascii.eqb c "010" || Ascii.eqb c "013".

Fixpoint skip_ws (cs : list ascii) : list ascii :=
  match cs with
  | c :: cs' => if is_ws c then skip_ws cs' else cs
  | [] => []
  end.

(** The characters up to the closing quote. *)
Fixpoint string_body (cs : list ascii) : option (string * list ascii) :=
  match cs with
  | [] => None
  | c :: cs' =>
      if Ascii.eqb c dquote then Some (EmptyString, cs')
      else if Ascii.eqb c backslash then None
      else '(s, rest) ← string_body cs'; Some (String c s, rest)
  end.

Definition digit (c : ascii) : option Z :=
  let n := nat_of_ascii c in
  if bool_decide (48 ≤ n ≤ 57)%nat then Some (Z.of_nat n - 48)%Z else None.

Fixpoint digits (acc : Z) (cs : list ascii) : Z * list ascii :=
  match cs with
  | c :: cs' =>
      match digit c with
      | Some d => digits (10 * acc + d)%Z cs'
      | None => (acc, cs)
      end
  | [] => (acc, [])
  end.

(** A natural number without a leading zero, fraction or exponent. *)
Definition natural (cs : list ascii) : option (Z * list ascii) :=
  match cs with
  | c :: cs' =>
      d ← digit c;
      let '(z, rest) := digits d cs' in
      match rest with
      | "." :: _ | "e" :: _ | "E" :: _ => None
      | _ => if bool_decide (d = 0%Z ∧ rest ≠ cs') then None else Some (z, rest)
      end
  | [] => None
  end.

Definition scalar (cs : list ascii) : option (value * list ascii) :=
  match cs with
  | "n" :: "u" :: "l" :: "l" :: rest => Some (VNone, rest)
  | "t" :: "r" :: "u" :: "e" :: rest => Some (VBool true, rest)
  | "f" :: "a" :: "l" :: "s" :: "e" :: rest => Some (VBool false, rest)
  | "-" :: rest => '(z, rest') ← natural rest; Some (VInt (- z), rest')
  | _ => '(z, rest') ← natural cs; Some (VInt z, rest')
  end.

Fixpoint parse_value (fuel : nat) (cs : list ascii)
  : option (value * list ascii) :=
  match fuel with
  | 0 => None
  | S fuel' =>
      match skip_ws cs with
      | "034" :: rest =>
          '(s, rest') ← string_body rest; Some (VStr s, rest')
      | "[" :: rest =>
          match skip_ws rest with
          | "]" :: rest' => Some (VList [], rest')
          | _ => '(xs, rest') ← parse_elements fuel' rest; Some (VList xs, rest')
          end
      | "{" :: rest =>
          match skip_ws rest with
          | "}" :: rest' => Some (VDict [], rest')
          | _ =>
              '(kvs, rest') ← parse_members fuel' rest;
              Some (VDict (foldl (fun d kv => Dict.setitem kv.1 kv.2 d) [] kvs),
                    rest')
          end
      | cs' => scalar cs'
      end
  end
with parse_elements (fuel : nat) (cs : list ascii)
  : option (list value * list ascii) :=
  match fuel with
  | 0 => None
  | S fuel' =>
      '(v, rest) ← parse_value fuel' cs;
      match skip_ws rest with
      | "," :: rest' =>
          '(vs, rest'') ← parse_elements fuel' rest'; Some (v :: vs, rest'')
      | "]" :: rest' => Some ([v], rest')
      | _ => None
      end
  end
with parse_members (fuel : nat) (cs : list ascii)
  : option (list (string * value) * list ascii) :=
  match fuel with
  | 0 => None
  | S fuel' =>
      match skip_ws cs with
      | "034" :: rest =>
          '(k, rest1) ← string_body rest;
          match skip_ws rest1 with
          | ":" :: rest2 =>
              '(v, rest3) ← parse_value fuel' rest2;
              match skip_ws rest3 with
              | "," :: rest4 =>
                  '(kvs, rest5) ← parse_members fuel' rest4;
                  Some ((k, v) :: kvs, rest5)
              | "}" :: rest4 => Some ([(k, v)], rest4)
              | _ => None
              end
          | _ => None
          end
      | _ => None
      end
  end.

(** The parser runs on the characters of the text, with their number as
    fuel; what follows the value must be white space. *)
Definition loads (s : string) : option value :=
  let cs := String.list_ascii_of_string s in
  '(v, rest) ← parse_value (S (length cs)) cs;
  match skip_ws rest with
  | [] => Some v
  | _ => None
  end.

Definition quoted (s : string) : string :=
  String dquote (s +:+ String dquote EmptyString).

(** The text of an object whose fields are strings. *)
Fixpoint fields (kvs : list (string * string)) : string :=
  match kvs with
  | [] => EmptyString
  | [(k, v)] => quoted k +:+ ":" +:+ quoted v
  | (k, v) :: kvs' => quoted k +:+ ":" +:+ quoted v +:+ "," +:+ fields kvs'
  end%string.

Definition envelope (kvs : list (string * string)) : string :=
  ("{" +:+ fields kvs +:+ "}")%string.

End JsonFragment.

(** ** What the loop over the collection computes *)

Definition is_error (p : TaskExecutionAbciPayload) : Prop :=
  content p = ERROR_PAYLOAD.

#[global] Instance is_error_dec p : Decision (is_error p).
Proof. unfold is_error. apply _. Defined.

(** The number of entries whose content is the error payload. *)
Definition error_count (c : Dict.t TaskExecutionAbciPayload) : nat :=
  length (filter (λ kv, is_error kv.2) c).

(** The entries whose content is not the error payload, in the order of the
    collection. *)
Definition ok_entries (c : Dict.t TaskExecutionAbciPayload)
  : Dict.t TaskExecutionAbciPayload :=
  filter (λ kv, ¬ is_error kv.2) c.

(** The payload [f] does not decode to a dictionary with the key [key]. *)
Definition fails (loads : string → option value) (key : string)
    (f : TaskExecutionAbciPayload) : Prop :=
  raises (field loads key f).

(** Why reading [key] off the payload [f] fails with [e]: [json.loads]
    raises on the content, whatever it raises; or the value decoded is no
    dictionary and the subscript raises [TypeError]; or it is a dictionary
    without the key and the subscript raises [KeyError]. *)
Definition field_failure (loads : string → option value) (key : string)
    (f : TaskExecutionAbciPayload) (e : exn) : Prop :=
  loads (content f) = None
  ∨ (∃ v, loads (content f) = Some v ∧
          (∀ entries, v ≠ VDict entries) ∧ e = TypeError)
  ∨ (∃ entries, loads (content f) = Some (VDict entries) ∧
                Dict.get key entries = None ∧ e = KeyError key).

(** ** Example rounds *)

(** An instance of [is_majority_possible] for the examples, a two-thirds
    quorum: the largest group of equal payloads, joined by every participant
    still to submit, reaches the quorum. *)
Definition quorum (nb : nat) : nat := 2 * nb / 3 + 1.

Definition votes_for (c : Dict.t TaskExecutionAbciPayload) (s : string) : nat :=
  length (filter (λ kv, content kv.2 = s) c).

Definition quorum_possible (c : Dict.t TaskExecutionAbciPayload) (nb : nat)
  : bool :=
  bool_decide (quorum nb ≤
               (nb - length c) + max_list ((λ kv, votes_for c (content kv.2)) <$> c)).

Definition snapshot (max nb : nat) : SynchronizedData :=
  {| db := ∅; max_participants := max; nb_participants := nb |}.

Definition entry (who what : string) : string * TaskExecutionAbciPayload :=
  (who, {| sender := who; content := what |}).

Definition error_entry (who : string) : string * TaskExecutionAbciPayload :=
  entry who ERROR_PAYLOAD.

Definition result_entry (who request result : string)
  : string * TaskExecutionAbciPayload :=
  entry who (JsonFragment.envelope
               [("request_id", request); ("task_result", result)]).

(** Four participants, three results and one error. *)
Definition round_three_results : RoundState :=
  {| collection := [ result_entry "agent_0" "r1" "ok1";
                     error_entry "agent_1";
                     result_entry "agent_2" "r1" "ok2";
                     result_entry "agent_3" "r1" "ok3" ];
     synchronized_data := snapshot 4 4 |}.

(** Four participants, four errors. *)
Definition round_all_errors : RoundState :=
  {| collection := [ error_entry "agent_0"; error_entry "agent_1";
                     error_entry "agent_2"; error_entry "agent_3" ];
     synchronized_data := snapshot 4 4 |}.

(** Four participants, two of them have submitted. *)
Definition round_two_of_four : RoundState :=
  {| collection := [ result_entry "agent_0" "r1" "ok1";
                     result_entry "agent_1" "r1" "ok2" ];
     synchronized_data := snapshot 4 4 |}.

(** Four participants, three of them have submitted three different
    contents: no content can gather three votes any more. *)
Definition round_three_of_four : RoundState :=
  {| collection := [ result_entry "agent_0" "r1" "ok1";
                     result_entry "agent_1" "r1" "ok2";
                     error_entry "agent_2" ];
     synchronized_data := snapshot 4 4 |}.

(** Two of three registered participants take part, and both report an
    error. *)
Definition round_errors_below_max : RoundState :=
  {| collection := [ error_entry "agent_0"; error_entry "agent_1" ];
     synchronized_data := snapshot 3 2 |}.

(** Two participants: an error and a content that is not JSON. *)
Definition round_undecodable : RoundState :=
  {| collection := [ error_entry "agent_0"; entry "agent_1" "garbage" ];
     synchronized_data := snapshot 2 2 |}.

(** Two participants take part while one is registered: an error and a
    result. *)
Definition round_errors_reach_max : RoundState :=
  {| collection := [ error_entry "agent_0"; result_entry "agent_1" "r1" "ok1" ];
     synchronized_data := snapshot 1 2 |}.

(** Two participants: a full envelope, then one without [request_id]. *)
Definition round_missing_request_id : RoundState :=
  {| collection := [ result_entry "agent_0" "r1" "ok1";
                     entry "agent_1"
                       (JsonFragment.envelope [("task_result", "ok2")]) ];
     synchronized_data := snapshot 2 2 |}.

(** The round of [round_three_results] with the error submitted last, by
    another participant. *)
Definition round_three_results_error_last : RoundState :=
  {| collection := [ result_entry "agent_0" "r1" "ok1";
                     result_entry "agent_2" "r1" "ok2";
                     result_entry "agent_3" "r1" "ok3";
                     error_entry "agent_4" ];
     synchronized_data := snapshot 4 4 |}.

(** Two participants: a result, then a JSON list in place of an envelope. *)
Definition round_not_an_object : RoundState :=
  {| collection := [ result_entry "agent_0" "r1" "ok1";
                     entry "agent_1" "[1, 2]" ];
     synchronized_data := snapshot 2 2 |}.

(** Two participants: an envelope without [request_id], then a content
    that is not JSON. *)
Definition round_first_without_request_id : RoundState :=
  {| collection := [ entry "agent_0"
                       (JsonFragment.envelope [("task_result", "ok1")]);
                     entry "agent_1" "garbage" ];
     synchronized_data := snapshot 2 2 |}.

(** The snapshot [round_three_results] ends with. *)
Definition snapshot_three_results : SynchronizedData :=
  (update (snapshot 4 4)
     [ (finished_task_data_name,
        VDict [ ("request_id", VStr "r1");
                ("task_result", VList [VStr "ok1"; VStr "ok2"; VStr "ok3"]) ]) ]).2.

(** ** Lemmas on the loop over the collection *)

Lemma classify_error acc item :
  is_error item.2 → classify acc item = (S acc.1, acc.2).
Proof.
  unfold classify, is_error. intros ->. by rewrite String.eqb_refl.
Qed.

Lemma classify_ok acc item :
  ¬ is_error item.2 →
  classify acc item = (acc.1, Dict.setitem item.1 item.2 acc.2).
Proof.
  unfold classify, is_error. intros Hne.
  by apply String.eqb_neq in Hne as ->.
Qed.

Lemma setitem_fresh {V : Type} k (v : V) d :
  k ∉ Dict.keys d → Dict.setitem k v d = d ++ [(k, v)].
Proof.
  induction d as [|[k' v'] d IH]; simpl; [done|].
  intros Hk. apply not_elem_of_cons in Hk as [Hne Hk].
  assert (String.eqb k' k = false) as -> by (apply String.eqb_neq; congruence).
  by rewrite IH.
Qed.

Lemma setitem_not_nil {V : Type} k (v : V) d : Dict.setitem k v d ≠ [].
Proof. destruct d as [|[k' v'] d]; simpl; [done|]. by destruct (String.eqb k' k). Qed.

Lemma foldl_classify_count c : ∀ n d,
  (foldl classify (n, d) c).1 = n + error_count c.
Proof.
  unfold error_count.
  induction c as [|item c IH]; intros n d; [simpl; lia|].
  cbn [foldl].
  destruct (decide (is_error item.2)) as [He|He].
  - rewrite (classify_error _ _ He), IH, filter_cons_True by done. simpl. lia.
  - rewrite (classify_ok _ _ He), IH, filter_cons_False by done. done.
Qed.

Lemma foldl_classify_ok c : ∀ n d,
  NoDup (Dict.keys d ++ Dict.keys c) →
  (foldl classify (n, d) c).2 = d ++ ok_entries c.
Proof.
  unfold ok_entries.
  induction c as [|[k p] c IH]; intros n d Hnd.
  { simpl. by rewrite filter_nil, app_nil_r. }
  cbn [foldl]. unfold Dict.keys in *. rewrite fmap_cons in Hnd.
  apply NoDup_app in Hnd as (Hd & Hdisj & Hc).
  apply NoDup_cons in Hc as [Hk Hc].
  destruct (decide (is_error p)) as [He|He].
  - rewrite (classify_error _ (k, p) He), filter_cons_False by (simpl; tauto).
    simpl. apply IH. apply NoDup_app. split_and!; [done| |done].
    intros x Hx Hx'. apply (Hdisj x Hx). by right.
  - rewrite (classify_ok _ (k, p) He), filter_cons_True by done. simpl.
    rewrite setitem_fresh.
    + rewrite IH; [by rewrite <- app_assoc|].
      rewrite fmap_app. simpl. rewrite <- app_assoc. simpl.
      apply NoDup_app. split_and!; [done| |by apply NoDup_cons].
      intros x Hx Hx'. apply (Hdisj x Hx). done.
    + intros Hin. apply (Hdisj _ Hin). by left.
Qed.

Lemma count_and_split_count c : (count_and_split c).1 = error_count c.
Proof. unfold count_and_split. by rewrite foldl_classify_count. Qed.

Lemma count_and_split_ok c :
  Dict.wf c → (count_and_split c).2 = ok_entries c.
Proof.
  intros Hwf. unfold count_and_split. by rewrite foldl_classify_ok.
Qed.

Lemma foldl_classify_nil c : ∀ n d,
  (foldl classify (n, d) c).2 = [] ↔ d = [] ∧ Forall (λ kv, is_error kv.2) c.
Proof.
  induction c as [|item c IH]; intros n d; cbn [foldl].
  { simpl. split; [by intros ->|by intros [-> _]]. }
  rewrite Forall_cons.
  destruct (decide (is_error item.2)) as [He|He].
  - rewrite (classify_error _ _ He), IH. simpl. tauto.
  - rewrite (classify_ok _ _ He), IH. simpl. split.
    + intros [Hnil _]. by apply setitem_not_nil in Hnil.
    + tauto.
Qed.

Lemma count_and_split_nil c :
  (count_and_split c).2 = [] ↔ Forall (λ kv, is_error kv.2) c.
Proof. unfold count_and_split. rewrite foldl_classify_nil. tauto. Qed.

Lemma not_all_errors (c : Dict.t TaskExecutionAbciPayload) :
  ¬ Forall (λ kv, is_error kv.2) c ↔ Exists (λ kv, ¬ is_error kv.2) c.
Proof.
  induction c as [|item c IH].
  - split; [intros H; by destruct H|by intros H%Exists_nil].
  - rewrite Forall_cons, Exists_cons, <- IH.
    destruct (decide (is_error item.2)); tauto.
Qed.

Lemma error_count_le c : error_count c ≤ length c.
Proof. apply length_filter. Qed.

Lemma length_ok_entries c :
  length (ok_entries c) = length c - error_count c.
Proof.
  unfold ok_entries, error_count.
  induction c as [|item c IH]; [done|].
  pose proof (error_count_le c) as Hle. unfold error_count in Hle.
  destruct (decide (is_error item.2)) as [He|He].
  - rewrite filter_cons_False, filter_cons_True by tauto. simpl. lia.
  - rewrite filter_cons_True, filter_cons_False by tauto. simpl. lia.
Qed.

Lemma threshold_reached_iff self :
  collection_threshold_reached self = true ↔
  length (collection self) = nb_participants (synchronized_data self).
Proof. unfold collection_threshold_reached. apply bool_decide_eq_true. Qed.

Lemma threshold_not_reached self :
  length (collection self) < nb_participants (synchronized_data self) →
  collection_threshold_reached self = false.
Proof.
  intros Hlt. unfold collection_threshold_reached.
  apply bool_decide_eq_false. lia.
Qed.

Section RoundFacts.

Variable loads : string → option value.
Variable is_majority_possible :
  Dict.t TaskExecutionAbciPayload → nat → bool.

(** [end_block] once every participant has submitted, with the loop
    replaced by what it computes. *)
Lemma end_block_reached self :
  collection_threshold_reached self = true →
  end_block loads is_majority_possible self =
    if bool_decide (error_count (collection self)
                    = max_participants (synchronized_data self))
    then (self, Return (Some (synchronized_data self, ERROR)))
    else
      match payloads_json loads (count_and_split (collection self)).2 with
      | Raise e => (self, Raise e)
      | Return pj =>
          (self,
           Return (Some ((update (synchronized_data self)
                            [(finished_task_data_name, pj)]).2, DONE)))
      end.
Proof.
  intros Hthr. unfold end_block. rewrite Hthr.
  rewrite <- count_and_split_count.
  destruct (count_and_split (collection self)) as [ne ok]. simpl.
  case_bool_decide; [done|].
  destruct (payloads_json loads ok); [|done]. by destruct self.
Qed.

Lemma end_block_pending self :
  collection_threshold_reached self = false →
  end_block loads is_majority_possible self =
    if is_majority_possible (collection self)
         (nb_participants (synchronized_data self))
    then (self, Return None)
    else (self, Return (Some (synchronized_data self, NO_MAJORITY))).
Proof.
  intros Hthr. unfold end_block. rewrite Hthr.
  by destruct (is_majority_possible _ _).
Qed.

End RoundFacts.

(** ** The decisions of [end_block] *)

Section Decisions.

Variable loads : string → option value.
Variable is_majority_possible : Dict.t TaskExecutionAbciPayload → nat → bool.

(** C1: when every participant has submitted and the number of error
    payloads equals [max_participants], the number of all participants,
    [end_block] returns the synchronized data it holds with the event
    [ERROR]. Whatever the other payloads decode to plays no part: this exit
    comes before the aggregation. *)
Theorem end_block_unanimous_error self :
  collection_threshold_reached self = true →
  error_count (collection self) = max_participants (synchronized_data self) →
  end_block loads is_majority_possible self = (self, Return (Some (synchronized_data self, ERROR))).
Proof.
  intros Hthr Hall. rewrite end_block_reached by done.
  by rewrite bool_decide_eq_true_2.
Qed.

(** C3: when fewer than [nb_participants] participants have submitted and
    [is_majority_possible] answers no, [end_block] returns the synchronized
    data it holds with the event [NO_MAJORITY], at once. *)
Theorem end_block_no_majority self :
  length (collection self) < nb_participants (synchronized_data self) →
  is_majority_possible (collection self)
    (nb_participants (synchronized_data self)) = false →
  end_block loads is_majority_possible self = (self, Return (Some (synchronized_data self, NO_MAJORITY))).
Proof.
  intros Hlt Hno. rewrite end_block_pending by by apply threshold_not_reached.
  by rewrite Hno.
Qed.

(** C4: when fewer than [nb_participants] participants have submitted and
    [is_majority_possible] answers yes, [end_block] returns [None]: the
    round stays pending. *)
Theorem end_block_pending_none self :
  length (collection self) < nb_participants (synchronized_data self) →
  is_majority_possible (collection self)
    (nb_participants (synchronized_data self)) = true →
  end_block loads is_majority_possible self = (self, Return None).
Proof.
  intros Hlt Hyes. rewrite end_block_pending by by apply threshold_not_reached.
  by rewrite Hyes.
Qed.

(** C10: [end_block] raises, returns [None], or returns a snapshot with one
    of [ERROR], [DONE] and [NO_MAJORITY]; it never returns [ROUND_TIMEOUT].
    The table [event_to_timeout] of the application has no entry. *)
Theorem end_block_events self :
  (raises (end_block loads is_majority_possible self).2
   ∨ (end_block loads is_majority_possible self).2 = Return None
   ∨ (end_block loads is_majority_possible self).2 = Return (Some (synchronized_data self, ERROR))
   ∨ (∃ sd, (end_block loads is_majority_possible self).2 = Return (Some (sd, DONE)))
   ∨ (end_block loads is_majority_possible self).2 = Return (Some (synchronized_data self, NO_MAJORITY)))
  ∧ (∀ sd, (end_block loads is_majority_possible self).2 ≠ Return (Some (sd, ROUND_TIMEOUT)))
  ∧ TaskExecutionAbciApp.event_to_timeout = [].
Proof.
  split_and!; [| |done].
  - destruct (collection_threshold_reached self) eqn:Hthr.
    + rewrite end_block_reached by done. case_bool_decide; [auto|].
      destruct (payloads_json _ _); simpl; eauto 6.
    + rewrite end_block_pending by done.
      destruct (is_majority_possible _ _); simpl; auto 6.
  - intros sd. destruct (collection_threshold_reached self) eqn:Hthr.
    + rewrite end_block_reached by done. case_bool_decide; [done|].
      by destruct (payloads_json _ _).
    + rewrite end_block_pending by done.
      by destruct (is_majority_possible _ _).
Qed.

End Decisions.

(** ** Comprehensions and the aggregate *)

Lemma not_raises_Return {A : Type} (m : result A) :
  ¬ raises m ↔ ∃ a, m = Return a.
Proof.
  destruct m as [a|e]; simpl.
  - split; [by exists a|tauto].
  - split; [tauto|by intros [a [=]]].
Qed.

Lemma bind_Return {A B : Type} (a : A) (k : A → result B) :
  Return a ≫= k = k a.
Proof. done. Qed.

Lemma raises_bind_Return {A B : Type} (m : result A) (g : A → B) :
  raises (m ≫= λ x, Return (g x)) ↔ raises m.
Proof. by destruct m. Qed.

Lemma comprehension_Return {A B : Type} (f : A → result B) xs : ∀ ys,
  comprehension f xs = Return ys ↔ Forall2 (λ x y, f x = Return y) xs ys.
Proof.
  induction xs as [|x xs IH]; intros ys; simpl.
  - split.
    + intros [= <-]. constructor.
    + by intros ->%Forall2_nil_inv_l.
  - split.
    + destruct (f x) as [y|e] eqn:Hfx; simpl; [|done].
      destruct (comprehension f xs) as [ys'|e] eqn:Hc; simpl; [|done].
      intros [= <-]. constructor; [done|]. by apply IH.
    + intros (y & ys' & Hy & Hys & ->)%Forall2_cons_inv_l.
      apply IH in Hys. by rewrite Hy, Hys.
Qed.

Lemma comprehension_raises {A B : Type} (f : A → result B) xs :
  raises (comprehension f xs) ↔ Exists (λ x, raises (f x)) xs.
Proof.
  induction xs as [|x xs IH]; simpl.
  - split; [done|by intros H%Exists_nil].
  - rewrite Exists_cons, <- IH.
    destruct (f x) as [y|e]; simpl; [|tauto].
    destruct (comprehension f xs); simpl; tauto.
Qed.

Lemma comprehension_Raise {A B : Type} (f : A → result B) xs e :
  comprehension f xs = Raise e → ∃ x, x ∈ xs ∧ f x = Raise e.
Proof.
  induction xs as [|x xs IH]; simpl; [done|].
  destruct (f x) as [y|e'] eqn:Hfx; simpl.
  - destruct (comprehension f xs) as [ys|e'] eqn:Hc; simpl; [done|].
    intros [= ->]. destruct (IH eq_refl) as (x' & Hin & Hx').
    exists x'. split; [|done]. apply elem_of_cons. by right.
  - intros [= ->]. exists x. split; [|done]. apply elem_of_cons. by left.
Qed.

Section Aggregate.

Variable loads : string → option value.
Variable is_majority_possible : Dict.t TaskExecutionAbciPayload → nat → bool.

(** [payloads_json] on a dictionary with a first entry. *)
Lemma payloads_json_cons k p ok :
  payloads_json loads ((k, p) :: ok) =
    request_id ← field loads "request_id" p;
    task_result ← comprehension (field loads "task_result") (p :: ok.*2);
    Return (VDict [("request_id", request_id);
                   ("task_result", VList task_result)]).
Proof.
  unfold payloads_json, Dict.getitem. simpl. by rewrite String.eqb_refl.
Qed.

Lemma payloads_json_raises ok :
  raises (payloads_json loads ok) ↔
  ok = [] ∨ (∃ kv, head ok = Some kv ∧ fails loads "request_id" kv.2)
  ∨ Exists (λ kv, fails loads "task_result" kv.2) ok.
Proof.
  destruct ok as [|[k p] ok].
  { simpl. split; [by left|done]. }
  rewrite payloads_json_cons.
  destruct (field loads "request_id" p) as [rid|e] eqn:Hrid.
  - rewrite bind_Return, raises_bind_Return, comprehension_raises.
    change (p :: ok.*2) with (((k, p) :: ok).*2). rewrite Exists_fmap.
    split; [by right; right|].
    intros [?|[(kv & [= <-] & Hf)|?]]; [done| |done].
    unfold fails in Hf. simpl in Hf. by rewrite Hrid in Hf.
  - split; [|done]. intros _. right. left. exists (k, p).
    split; [done|]. unfold fails. simpl. by rewrite Hrid.
Qed.

Lemma payloads_json_Return ok :
  ok ≠ [] →
  (∀ kv, head ok = Some kv → ¬ fails loads "request_id" kv.2) →
  Forall (λ kv, ¬ fails loads "task_result" kv.2) ok →
  ∃ kv request_id task_result,
    head ok = Some kv ∧
    field loads "request_id" kv.2 = Return request_id ∧
    Forall2 (λ kv r, field loads "task_result" kv.2 = Return r) ok task_result ∧
    payloads_json loads ok =
      Return (VDict [("request_id", request_id);
                     ("task_result", VList task_result)]).
Proof.
  intros Hne Hfirst Hall.
  destruct ok as [|[k p] ok]; [done|].
  destruct (proj1 (not_raises_Return _) (Hfirst (k, p) eq_refl)) as [rid Hrid].
  assert (¬ raises (comprehension (field loads "task_result") (((k, p) :: ok).*2)))
    as Hc.
  { rewrite comprehension_raises, Exists_fmap. intros Hex.
    apply Exists_exists in Hex as (kv & Hin & Hkv).
    rewrite Forall_forall in Hall. by apply (Hall kv). }
  apply not_raises_Return in Hc as [results Hres].
  exists (k, p), rid, results. split_and!; [done|done| |].
  - apply comprehension_Return in Hres. by apply Forall2_fmap_l in Hres.
  - rewrite payloads_json_cons. simpl in Hrid. rewrite Hrid, bind_Return.
    change (p :: ok.*2) with (((k, p) :: ok).*2). by rewrite Hres.
Qed.

Lemma field_Raise key f e :
  field loads key f = Raise e →
  e = JSONDecodeError ∨ e = TypeError ∨ e = KeyError key.
Proof.
  unfold field, json_loads. destruct (loads (content f)) as [v|]; simpl.
  - destruct v; simpl; try (intros [= <-]; tauto).
    unfold Dict.getitem. destruct (Dict.get key entries); [done|].
    intros [= <-]. tauto.
  - intros [= <-]. tauto.
Qed.

Lemma payloads_json_IndexError ok :
  payloads_json loads ok = Raise IndexError → ok = [].
Proof.
  destruct ok as [|[k p] ok]; [done|].
  rewrite payloads_json_cons.
  destruct (field loads "request_id" p) as [rid|e] eqn:Hrid.
  - rewrite bind_Return.
    destruct (comprehension _ _) as [results|e] eqn:Hc; [done|].
    intros [= ->]. apply comprehension_Raise in Hc as (x & _ & Hx).
    apply field_Raise in Hx as [?|[?|?]]; done.
  - intros [= ->]. apply field_Raise in Hrid as [?|[?|?]]; done.
Qed.

End Aggregate.

Lemma update_db sd key v :
  db (update sd [(key, v)]).2 = <[key := v]> (db sd).
Proof. done. Qed.

Section Aggregation.

Variable loads : string → option value.
Variable is_majority_possible : Dict.t TaskExecutionAbciPayload → nat → bool.

(** C2, amended: when every participant has submitted, the number of error
    payloads lies strictly between 0 and [nb_participants] and differs from
    [max_participants], the first payload that is not an error decodes to a
    dictionary with [request_id], and each of them to one with
    [task_result], then [end_block] returns [DONE] with a snapshot whose
    [finished_task_data] holds that [request_id] and the list of the
    [task_result] fields in the order of the collection; the list has
    [nb_participants] minus the error count elements. *)
Theorem end_block_done self :
  Dict.wf (collection self) →
  collection_threshold_reached self = true →
  0 < error_count (collection self) < nb_participants (synchronized_data self) →
  error_count (collection self) ≠ max_participants (synchronized_data self) →
  (∀ kv, head (ok_entries (collection self)) = Some kv →
         ¬ fails loads "request_id" kv.2) →
  Forall (λ kv, ¬ fails loads "task_result" kv.2) (ok_entries (collection self)) →
  ∃ kv request_id task_result sd,
    end_block loads is_majority_possible self = (self, Return (Some (sd, DONE))) ∧
    head (ok_entries (collection self)) = Some kv ∧
    field loads "request_id" kv.2 = Return request_id ∧
    Forall2 (λ kv r, field loads "task_result" kv.2 = Return r)
      (ok_entries (collection self)) task_result ∧
    length task_result =
      nb_participants (synchronized_data self) - error_count (collection self) ∧
    finished_task_data sd =
      Return (VDict [("request_id", request_id);
                     ("task_result", VList task_result)]).
Proof.
  intros Hwf Hthr [Hpos Hlt] Hne Hfirst Hall.
  pose proof (length_ok_entries (collection self)) as Hlen.
  apply threshold_reached_iff in Hthr as Hnb.
  destruct (payloads_json_Return loads (ok_entries (collection self)))
    as (kv & rid & results & Hhead & Hrid & Hres & Hpj); [|done|done|].
  { intros Hnil. rewrite Hnil in Hlen. simpl in Hlen. lia. }
  rewrite end_block_reached, bool_decide_eq_false_2, count_and_split_ok, Hpj
    by done.
  eexists kv, rid, results, _. split_and!; [done|done|done|done| |].
  - apply Forall2_length in Hres. lia.
  - unfold finished_task_data, get_strict.
    by rewrite update_db, lookup_insert_eq.
Qed.

(** C7, amended: when every participant has submitted, the error count
    differs from [max_participants], and the first payload that is not an
    error fails to decode to a dictionary with [request_id] or some such
    payload fails to decode to one with [task_result], [end_block] raises:
    it returns neither an event nor a snapshot. *)
Theorem end_block_decode_failure self :
  Dict.wf (collection self) →
  collection_threshold_reached self = true →
  error_count (collection self) ≠ max_participants (synchronized_data self) →
  (∃ kv, head (ok_entries (collection self)) = Some kv ∧
         fails loads "request_id" kv.2)
  ∨ Exists (λ kv, fails loads "task_result" kv.2) (ok_entries (collection self)) →
  raises (end_block loads is_majority_possible self).2.
Proof.
  intros Hwf Hthr Hne Hfail.
  rewrite end_block_reached, bool_decide_eq_false_2, count_and_split_ok by done.
  assert (raises (payloads_json loads (ok_entries (collection self)))) as Hr.
  { apply payloads_json_raises. by right. }
  by destruct (payloads_json loads _).
Qed.

(** C6: [end_block] leaves the round as it was, synchronized data
    included. With [ERROR] and [NO_MAJORITY] it returns the very snapshot
    the round holds; with [DONE] it returns a snapshot that has
    [finished_task_data] set and agrees with the one the round holds on the
    participant counts and on every other key of the database. *)
Theorem end_block_frame self :
  (end_block loads is_majority_possible self).1 = self ∧
  ∀ sd ev,
    (end_block loads is_majority_possible self).2 = Return (Some (sd, ev)) →
    match ev with
    | DONE =>
        is_Some (db sd !! finished_task_data_name) ∧
        (∀ key, key ≠ finished_task_data_name →
                db sd !! key = db (synchronized_data self) !! key) ∧
        max_participants sd = max_participants (synchronized_data self) ∧
        nb_participants sd = nb_participants (synchronized_data self)
    | _ => sd = synchronized_data self
    end.
Proof.
  destruct (collection_threshold_reached self) eqn:Hthr.
  - rewrite end_block_reached by done. case_bool_decide.
    + split; [done|]. by intros sd ev [= <- <-].
    + destruct (payloads_json loads _) as [pj|e]; [|done].
      split; [done|]. intros sd ev [= <- <-]. split_and!; [|intros key Hkey|done|done].
      * cbn [db]. rewrite lookup_insert_eq. by eexists.
      * cbn [db]. by rewrite lookup_insert_ne.
  - rewrite end_block_pending by done.
    destruct (is_majority_possible _ _); [done|].
    split; [done|]. by intros sd ev [= <- <-].
Qed.

(** C9: past the threshold and with an error count other than
    [max_participants], the first key of [ok_payloads] is read without a
    test. The read succeeds exactly when some collected payload is not the
    error payload, and [end_block] raises [IndexError] exactly when all of
    them are: it then fails on the empty [ok_payloads] and returns no
    event. No other step of [end_block] raises [IndexError]. *)
Theorem end_block_first_ok_index self :
  collection_threshold_reached self = true →
  error_count (collection self) ≠ max_participants (synchronized_data self) →
  ((∃ k, first (Dict.keys (count_and_split (collection self)).2) = Return k)
   ↔ Exists (λ kv, ¬ is_error kv.2) (collection self))
  ∧ ((end_block loads is_majority_possible self).2 = Raise IndexError
     ↔ Forall (λ kv, is_error kv.2) (collection self))
  ∧ (Forall (λ kv, is_error kv.2) (collection self) →
     end_block loads is_majority_possible self = (self, Raise IndexError)).
Proof.
  intros Hthr Hne.
  assert (Forall (λ kv, is_error kv.2) (collection self) →
          end_block loads is_majority_possible self = (self, Raise IndexError))
    as Hall.
  { intros Hall. rewrite end_block_reached by done.
    rewrite bool_decide_eq_false_2 by done.
    apply count_and_split_nil in Hall as ->. done. }
  split_and!; [| |done].
  - rewrite <- not_all_errors, <- count_and_split_nil.
    destruct (count_and_split (collection self)).2 as [|[k p] ok]; simpl.
    + split; [by intros [k [=]]|done].
    + split; [done|by exists k].
  - split; [|by intros ->%Hall].
    rewrite end_block_reached, bool_decide_eq_false_2 by done.
    rewrite <- count_and_split_nil.
    destruct (payloads_json loads _) as [pj|e] eqn:Hpj; [done|].
    intros [= ->]. by apply payloads_json_IndexError in Hpj.
Qed.

End Aggregation.

(** C5: the transition function has the four entries of
    [TaskExecutionRound] and no other; [TaskExecutionRound] is the initial
    round and the only initial state; the final states are the two finished
    rounds, whose rows in the table are empty. *)
Theorem transition_function_table :
  (∀ s e s',
     TaskExecutionAbciApp.next_round s e = Some s' ↔
     (s, e, s') ∈ [ (TaskExecutionRound, DONE, FinishedTaskExecutionRound);
                    (TaskExecutionRound, NO_MAJORITY, TaskExecutionRound);
                    (TaskExecutionRound, ROUND_TIMEOUT, TaskExecutionRound);
                    (TaskExecutionRound, ERROR,
                     FinishedTaskExecutionWithErrorRound) ])
  ∧ TaskExecutionAbciApp.initial_round_cls = TaskExecutionRound
  ∧ (∀ s, s ∈ TaskExecutionAbciApp.initial_states ↔ s = TaskExecutionRound)
  ∧ (∀ s, s ∈ TaskExecutionAbciApp.final_states ↔
          s = FinishedTaskExecutionRound
          ∨ s = FinishedTaskExecutionWithErrorRound)
  ∧ (∀ s, s ∈ TaskExecutionAbciApp.final_states →
          assoc s TaskExecutionAbciApp.transition_function = Some []
          ∧ ∀ e, TaskExecutionAbciApp.next_round s e = None).
Proof.
  unfold TaskExecutionAbciApp.initial_states, TaskExecutionAbciApp.final_states.
  split_and!; [|done| | |].
  - intros s e s'. rewrite !elem_of_cons, elem_of_nil.
    destruct s, e, s'; vm_compute;
      (split; [intros [=]; tauto|intros H; decompose [or] H; done]).
  - intros s. rewrite elem_of_cons, elem_of_nil. tauto.
  - intros s. rewrite !elem_of_cons, elem_of_nil. tauto.
  - intros s. rewrite !elem_of_cons, elem_of_nil.
    intros [->|[->|[]]]; (split; [done|by intros []]).
Qed.

(** ** The theorems at the example rounds *)

Lemma end_block_unanimous_error_witness :
  collection_threshold_reached round_all_errors = true ∧
  error_count (collection round_all_errors) = 4 ∧
  end_block JsonFragment.loads quorum_possible round_all_errors
  = (round_all_errors, Return (Some (snapshot 4 4, ERROR))).
Proof.
  split_and!; [reflexivity|reflexivity|].
  apply (end_block_unanimous_error JsonFragment.loads quorum_possible
           round_all_errors); reflexivity.
Defined.

Lemma end_block_no_majority_witness :
  quorum_possible (collection round_three_of_four) 4 = false ∧
  end_block JsonFragment.loads quorum_possible round_three_of_four
  = (round_three_of_four, Return (Some (snapshot 4 4, NO_MAJORITY))).
Proof.
  split; [reflexivity|].
  apply (end_block_no_majority JsonFragment.loads quorum_possible
           round_three_of_four); [simpl; lia|reflexivity].
Defined.

Lemma end_block_pending_none_witness :
  quorum_possible (collection round_two_of_four) 4 = true ∧
  end_block JsonFragment.loads quorum_possible round_two_of_four
  = (round_two_of_four, Return None).
Proof.
  split; [reflexivity|].
  apply (end_block_pending_none JsonFragment.loads quorum_possible
           round_two_of_four); [simpl; lia|reflexivity].
Defined.

Lemma end_block_first_ok_index_witness :
  collection_threshold_reached round_errors_below_max = true ∧
  error_count (collection round_errors_below_max) = 2 ∧
  max_participants (synchronized_data round_errors_below_max) = 3 ∧
  end_block JsonFragment.loads quorum_possible round_errors_below_max
  = (round_errors_below_max, Raise IndexError).
Proof.
  split_and!; [reflexivity|reflexivity|reflexivity|].
  apply (end_block_first_ok_index JsonFragment.loads quorum_possible
           round_errors_below_max); [reflexivity|vm_compute; lia|].
  repeat constructor.
Defined.

Lemma end_block_done_witness :
  ∃ kv sd,
    end_block JsonFragment.loads quorum_possible round_three_results
    = (round_three_results, Return (Some (sd, DONE))) ∧
    head (ok_entries (collection round_three_results)) = Some kv ∧
    finished_task_data sd =
      Return (VDict [("request_id", VStr "r1");
                     ("task_result", VList [VStr "ok1"; VStr "ok2"; VStr "ok3"])]).
Proof.
  destruct (end_block_done JsonFragment.loads quorum_possible
              round_three_results)
    as (kv & rid & results & sd & Hend & Hhead & Hrid & Hres & Hlen & Hdata).
  - apply (bool_decide_unpack _). vm_compute. exact I.
  - reflexivity.
  - vm_compute. lia.
  - vm_compute. lia.
  - intros kv [= <-]. vm_compute. tauto.
  - replace (ok_entries (collection round_three_results))
      with [ result_entry "agent_0" "r1" "ok1";
             result_entry "agent_2" "r1" "ok2";
             result_entry "agent_3" "r1" "ok3" ]
      by (vm_compute; reflexivity).
    repeat constructor; vm_compute; tauto.
  - exists kv, sd. split_and!; [done|done|].
    injection Hend as <-. exact eq_refl.
Defined.

Lemma end_block_decode_failure_witness :
  collection_threshold_reached round_undecodable = true ∧
  end_block JsonFragment.loads quorum_possible round_undecodable
  = (round_undecodable, Raise JSONDecodeError) ∧
  raises (end_block JsonFragment.loads quorum_possible round_undecodable).2.
Proof.
  split_and!; [reflexivity|reflexivity|].
  apply (end_block_decode_failure JsonFragment.loads quorum_possible
           round_undecodable).
  - apply (bool_decide_unpack _). vm_compute. exact I.
  - reflexivity.
  - vm_compute. lia.
  - right.
    replace (ok_entries (collection round_undecodable))
      with [ entry "agent_1" "garbage" ] by (vm_compute; reflexivity).
    apply Exists_cons_hd. vm_compute. exact I.
Defined.

(** ** Where two claims fail as they were stated *)

(** C2 as stated asks only for the threshold and for an error count
    strictly between 0 and [nb_participants]. With a payload that is not
    JSON the round raises instead of returning [DONE]; and with an error
    count that equals [max_participants] it returns [ERROR], although a
    result was submitted. *)
Lemma end_block_done_counterexample :
  (Dict.wf (collection round_undecodable) ∧
   collection_threshold_reached round_undecodable = true ∧
   0 < error_count (collection round_undecodable)
     < nb_participants (synchronized_data round_undecodable) ∧
   end_block JsonFragment.loads quorum_possible round_undecodable
   = (round_undecodable, Raise JSONDecodeError))
  ∧
  (Dict.wf (collection round_errors_reach_max) ∧
   collection_threshold_reached round_errors_reach_max = true ∧
   0 < error_count (collection round_errors_reach_max)
     < nb_participants (synchronized_data round_errors_reach_max) ∧
   end_block JsonFragment.loads quorum_possible round_errors_reach_max
   = (round_errors_reach_max, Return (Some (snapshot 1 2, ERROR)))).
Proof.
  split; (split_and!;
    [apply (bool_decide_unpack _); vm_compute; exact I
    |reflexivity|vm_compute; lia|vm_compute; lia|reflexivity]).
Qed.

(** C7 as stated asks every payload that is not an error to decode to a
    dictionary with both fields. The second payload of this round has no
    [request_id]; [end_block] reads that field from the first payload only
    and returns [DONE] with both results. *)
Lemma end_block_decode_failure_counterexample :
  Dict.wf (collection round_missing_request_id) ∧
  collection_threshold_reached round_missing_request_id = true ∧
  Forall (λ kv, ¬ is_error kv.2) (collection round_missing_request_id) ∧
  Exists (λ kv, ¬ is_error kv.2 ∧
                (fails JsonFragment.loads "request_id" kv.2
                 ∨ fails JsonFragment.loads "task_result" kv.2))
    (collection round_missing_request_id) ∧
  ∃ sd,
    end_block JsonFragment.loads quorum_possible round_missing_request_id
    = (round_missing_request_id, Return (Some (sd, DONE))) ∧
    finished_task_data sd =
      Return (VDict [("request_id", VStr "r1");
                     ("task_result", VList [VStr "ok1"; VStr "ok2"])]).
Proof.
  split_and!.
  - apply (bool_decide_unpack _). vm_compute. exact I.
  - reflexivity.
  - repeat constructor; vm_compute; congruence.
  - apply Exists_cons_tl, Exists_cons_hd. split.
    + vm_compute. congruence.
    + left. vm_compute. exact I.
  - eexists. split; reflexivity.
Qed.

(** ** Further properties of the loop over the collection *)

Lemma get_setitem {V : Type} k (v : V) d k' :
  Dict.get k' (Dict.setitem k v d)
  = if String.eqb k k' then Some v else Dict.get k' d.
Proof.
  induction d as [|[k0 v0] d IH]; simpl.
  - destruct (String.eqb_spec k k'); done.
  - destruct (String.eqb_spec k0 k) as [->|Hne]; simpl.
    + destruct (String.eqb_spec k k'); done.
    + rewrite IH. destruct (String.eqb_spec k0 k') as [->|Hne']; [|done].
      by destruct (String.eqb_spec k k').
Qed.

Lemma keys_setitem {V : Type} k (v : V) d k' :
  k' ∈ Dict.keys (Dict.setitem k v d) ↔ k' = k ∨ k' ∈ Dict.keys d.
Proof.
  unfold Dict.keys. induction d as [|[k0 v0] d IH]; simpl.
  - rewrite elem_of_cons, !elem_of_nil. tauto.
  - destruct (String.eqb_spec k0 k) as [->|Hne]; simpl.
    + rewrite !elem_of_cons. tauto.
    + rewrite !elem_of_cons, IH. tauto.
Qed.

Lemma setitem_wf {V : Type} k (v : V) d :
  Dict.wf d → Dict.wf (Dict.setitem k v d).
Proof.
  unfold Dict.wf. induction d as [|[k0 v0] d IH]; simpl.
  - intros _. apply NoDup_singleton.
  - unfold Dict.keys in *. simpl. intros [Hk0 Hd]%NoDup_cons.
    destruct (String.eqb_spec k0 k) as [->|Hne]; simpl.
    + by apply NoDup_cons.
    + apply NoDup_cons. split; [|by apply IH].
      intros [?|?]%(keys_setitem k v d k0); [congruence|done].
Qed.

Lemma get_Some_elem_of {V : Type} k (v : V) d :
  Dict.get k d = Some v → (k, v) ∈ d.
Proof.
  induction d as [|[k0 v0] d IH]; simpl; [done|].
  destruct (String.eqb_spec k0 k) as [->|Hne].
  - intros [= ->]. apply elem_of_cons. by left.
  - intros Hget. apply elem_of_cons. right. by apply IH.
Qed.

Lemma foldl_classify_wf c : ∀ n d,
  Dict.wf d → Dict.wf (foldl classify (n, d) c).2.
Proof.
  induction c as [|item c IH]; intros n d Hwf; cbn [foldl]; [done|].
  destruct (decide (is_error item.2)) as [He|He].
  - rewrite (classify_error _ _ He). by apply IH.
  - rewrite (classify_ok _ _ He). apply IH. by apply setitem_wf.
Qed.

Lemma foldl_classify_get c : ∀ n d k p,
  Dict.get k (foldl classify (n, d) c).2 = Some p →
  Dict.get k d = Some p ∨ ((k, p) ∈ c ∧ ¬ is_error p).
Proof.
  induction c as [|item c IH]; intros n d k p; cbn [foldl]; [by left|].
  destruct (decide (is_error item.2)) as [He|He].
  - rewrite (classify_error _ _ He). intros [?|[? ?]]%IH; [by left|].
    right. split; [|done]. apply elem_of_cons. by right.
  - rewrite (classify_ok _ _ He). intros [Hget|[? ?]]%IH.
    + simpl in Hget. rewrite get_setitem in Hget.
      destruct (String.eqb_spec item.1 k) as [<-|Hne]; [|by left].
      injection Hget as <-. right. split; [|done].
      apply elem_of_cons. left. by destruct item.
    + right. split; [|done]. apply elem_of_cons. by right.
Qed.

Lemma foldl_classify_keys c : ∀ n d k,
  k ∈ Dict.keys (foldl classify (n, d) c).2 ↔
  k ∈ Dict.keys d ∨ ∃ p, (k, p) ∈ c ∧ ¬ is_error p.
Proof.
  induction c as [|item c IH]; intros n d k; cbn [foldl].
  { split; [by left|]. intros [?|(p & Hin & _)]; [done|].
    by apply elem_of_nil in Hin. }
  destruct (decide (is_error item.2)) as [He|He].
  - rewrite (classify_error _ _ He), IH. simpl. split.
    + intros [?|(p & Hin & Hp)]; [by left|]. right. exists p.
      split; [|done]. apply elem_of_cons. by right.
    + intros [?|(p & Hin & Hp)]; [by left|]. right. exists p.
      split; [|done]. apply elem_of_cons in Hin as [Heq|Hin]; [|done].
      rewrite <- Heq in He. by destruct Hp.
  - rewrite (classify_ok _ _ He), IH. simpl. rewrite keys_setitem. split.
    + intros [[->|?]|(p & Hin & Hp)].
      * right. exists item.2. split; [|done].
        apply elem_of_cons. left. by destruct item.
      * by left.
      * right. exists p. split; [|done]. apply elem_of_cons. by right.
    + intros [?|(p & Hin & Hp)]; [by left; right|].
      apply elem_of_cons in Hin as [Heq|Hin].
      * left. left. by rewrite <- Heq.
      * right. by exists p.
Qed.

(** X1: for a collection with distinct senders the loop of [end_block]
    splits it in two: [num_errors] counts the error payloads,
    [ok_payloads] holds the other entries in the order of the collection,
    and the two sizes add up to the size of the collection. *)
Theorem count_and_split_partition c :
  Dict.wf c →
  count_and_split c = (error_count c, ok_entries c) ∧
  (count_and_split c).1 + length (count_and_split c).2 = length c.
Proof.
  intros Hwf.
  assert (count_and_split c = (error_count c, ok_entries c)) as Heq.
  { rewrite (surjective_pairing (count_and_split c)).
    by rewrite count_and_split_count, count_and_split_ok. }
  split; [done|]. rewrite Heq. simpl.
  pose proof (error_count_le c). rewrite length_ok_entries. lia.
Qed.

(** X2: whatever the collection, [ok_payloads] has no sender twice and no
    error payload; each of its entries was collected, and every sender of a
    payload that is not an error is one of its keys. *)
Theorem ok_payloads_invariant c :
  Dict.wf (count_and_split c).2 ∧
  (∀ k p, Dict.get k (count_and_split c).2 = Some p →
          (k, p) ∈ c ∧ ¬ is_error p) ∧
  (∀ k, k ∈ Dict.keys (count_and_split c).2 ↔
        ∃ p, (k, p) ∈ c ∧ ¬ is_error p).
Proof.
  unfold count_and_split. split_and!.
  - apply foldl_classify_wf. apply NoDup_nil_2.
  - intros k p [Hnil|?]%foldl_classify_get; [done|done].
  - intros k. rewrite foldl_classify_keys. unfold Dict.keys. simpl.
    rewrite elem_of_nil. tauto.
Qed.

(** ** Further properties of the aggregation *)

Lemma comprehension_first_failure {A B : Type} (f : A → result B) pre x post e :
  Forall (λ x, ¬ raises (f x)) pre →
  f x = Raise e →
  comprehension f (pre ++ x :: post) = Raise e.
Proof.
  intros Hpre Hx. induction Hpre as [|x0 pre Hx0 _ IH]; simpl.
  - by rewrite Hx.
  - apply not_raises_Return in Hx0 as [y ->]. by rewrite bind_Return, IH.
Qed.

Section AggregationFacts.

Variable loads : string → option value.
Variable is_majority_possible : Dict.t TaskExecutionAbciPayload → nat → bool.

Lemma payloads_json_Return_inv ok pj :
  payloads_json loads ok = Return pj →
  ∃ kv request_id task_result,
    head ok = Some kv ∧
    field loads "request_id" kv.2 = Return request_id ∧
    Forall2 (λ f r, field loads "task_result" f = Return r)
      (Dict.values ok) task_result ∧
    pj = VDict [("request_id", request_id); ("task_result", VList task_result)].
Proof.
  destruct ok as [|[k p] ok]; [done|].
  rewrite payloads_json_cons.
  destruct (field loads "request_id" p) as [rid|e] eqn:Hrid; [|done].
  rewrite bind_Return.
  destruct (comprehension _ _) as [results|e] eqn:Hc; [|done].
  intros [= <-]. exists (k, p), rid, results. split_and!; [done|done| |done].
  by apply comprehension_Return in Hc.
Qed.

(** X3: [end_block] raises exactly when every participant has submitted,
    the error count differs from [max_participants], and [ok_payloads] is
    empty, or its first payload fails to give [request_id], or one of its
    payloads fails to give [task_result]. Before the threshold, and on the
    unanimous error, nothing is decoded and nothing is raised. *)
Theorem end_block_raises_iff self :
  raises (end_block loads is_majority_possible self).2 ↔
  collection_threshold_reached self = true ∧
  error_count (collection self) ≠ max_participants (synchronized_data self) ∧
  ((count_and_split (collection self)).2 = []
   ∨ (∃ kv, head (count_and_split (collection self)).2 = Some kv ∧
            fails loads "request_id" kv.2)
   ∨ Exists (λ kv, fails loads "task_result" kv.2)
       (count_and_split (collection self)).2).
Proof.
  destruct (collection_threshold_reached self) eqn:Hthr.
  - rewrite end_block_reached by done. case_bool_decide as Hec.
    + simpl. split; [done|]. by intros (_ & Hne & _).
    + rewrite <- payloads_json_raises.
      destruct (payloads_json loads _); simpl; tauto.
  - rewrite end_block_pending by done.
    destruct (is_majority_possible _ _); simpl; split; try done;
      by intros ([=] & _).
Qed.

Lemma field_Raise_failure key f e :
  field loads key f = Raise e → field_failure loads key f e.
Proof.
  unfold field, field_failure, json_loads.
  destruct (loads (content f)) as [v|]; simpl; [|by left].
  intros Hsub. right.
  destruct v; simpl in Hsub;
    try (injection Hsub as <-; left; eexists; by split_and!).
  right. exists entries. unfold Dict.getitem in Hsub.
  destruct (Dict.get key entries); [done|]. by injection Hsub as <-.
Qed.

(** X4: every exception [end_block] lets escape comes from the
    aggregation and has one of three causes. Either [ok_payloads] is empty
    and the exception is [IndexError]; or reading [request_id] off its
    first payload fails; or reading [task_result] off one of its payloads
    fails. Such a read fails because [json.loads] raises, or with
    [TypeError] on a value that is no dictionary, or with [KeyError] on a
    dictionary without the key. *)
Theorem end_block_raise_causes self e :
  (end_block loads is_majority_possible self).2 = Raise e →
  collection_threshold_reached self = true ∧
  error_count (collection self) ≠ max_participants (synchronized_data self) ∧
  (((count_and_split (collection self)).2 = [] ∧ e = IndexError)
   ∨ (∃ kv, head (count_and_split (collection self)).2 = Some kv ∧
            field_failure loads "request_id" kv.2 e)
   ∨ (∃ kv, kv ∈ (count_and_split (collection self)).2 ∧
            field_failure loads "task_result" kv.2 e)).
Proof.
  destruct (collection_threshold_reached self) eqn:Hthr.
  - rewrite end_block_reached by done. case_bool_decide as Hec; [done|].
    destruct (count_and_split (collection self)).2 as [|[k p] ok].
    { intros [= <-]. split_and!; [done|done|by left]. }
    rewrite payloads_json_cons.
    destruct (field loads "request_id" p) as [rid|e'] eqn:Hrid.
    + rewrite bind_Return.
      destruct (comprehension _ _) as [results|e'] eqn:Hc; [done|].
      intros [= ->]. split_and!; [done|done|]. right. right.
      apply comprehension_Raise in Hc as (x & Hin & Hx).
      change (p :: ok.*2) with (((k, p) :: ok).*2) in Hin.
      apply list_elem_of_fmap in Hin as (kv & -> & Hin).
      exists kv. split; [done|]. by apply field_Raise_failure.
    + intros [= ->]. split_and!; [done|done|]. right. left.
      exists (k, p). split; [done|]. by apply field_Raise_failure.
  - rewrite end_block_pending by done.
    by destruct (is_majority_possible _ _).
Qed.

(** X5: the exception of the first payload of [ok_payloads] on
    [request_id] is the one [end_block] raises, whatever the other payloads
    hold: that field is read before any [task_result]. *)
Theorem end_block_request_id_first self kv e :
  collection_threshold_reached self = true →
  error_count (collection self) ≠ max_participants (synchronized_data self) →
  head (count_and_split (collection self)).2 = Some kv →
  field loads "request_id" kv.2 = Raise e →
  end_block loads is_majority_possible self = (self, Raise e).
Proof.
  intros Hthr Hne Hhead Hrid.
  rewrite end_block_reached, bool_decide_eq_false_2 by done.
  destruct (count_and_split (collection self)).2 as [|[k p] ok]; [done|].
  injection Hhead as <-. rewrite payloads_json_cons. simpl in Hrid.
  by rewrite Hrid.
Qed.

(** X6: when the first payload gives its [request_id], the payloads of
    [ok_payloads] are decoded for [task_result] from first to last, and the
    first one to fail decides the exception [end_block] raises. *)
Theorem end_block_task_result_leftmost self kv0 request_id pre kv post e :
  collection_threshold_reached self = true →
  error_count (collection self) ≠ max_participants (synchronized_data self) →
  (count_and_split (collection self)).2 = pre ++ kv :: post →
  head (pre ++ kv :: post) = Some kv0 →
  field loads "request_id" kv0.2 = Return request_id →
  Forall (λ kv, ¬ fails loads "task_result" kv.2) pre →
  field loads "task_result" kv.2 = Raise e →
  end_block loads is_majority_possible self = (self, Raise e).
Proof.
  intros Hthr Hne Hok Hhead Hrid Hpre He.
  rewrite end_block_reached, bool_decide_eq_false_2, Hok by done.
  assert (comprehension (field loads "task_result")
            (Dict.values (pre ++ kv :: post)) = Raise e) as Hc.
  { unfold Dict.values. rewrite fmap_app, fmap_cons.
    apply comprehension_first_failure; [|done]. by apply Forall_fmap. }
  destruct (pre ++ kv :: post) as [|[k p] ok] eqn:Hlist; [done|].
  injection Hhead as <-. rewrite payloads_json_cons. simpl in Hrid.
  rewrite Hrid, bind_Return. unfold Dict.values in Hc.
  change (((k, p) :: ok).*2) with (p :: ok.*2) in Hc. by rewrite Hc.
Qed.

End AggregationFacts.

(** ** Further properties of the outcomes *)

Section OutcomeFacts.

Variable loads : string → option value.
Variable is_majority_possible : Dict.t TaskExecutionAbciPayload → nat → bool.

(** X7: each outcome without aggregation tells the branch taken. [ERROR]
    is returned exactly past the threshold with an error count equal to
    [max_participants]; [NO_MAJORITY] exactly before the threshold when
    [is_majority_possible] answers no; [None] exactly before the threshold
    when it answers yes. The snapshot returned is the one the round holds. *)
Theorem end_block_returns_iff self :
  (∀ sd, (end_block loads is_majority_possible self).2
         = Return (Some (sd, ERROR)) ↔
         sd = synchronized_data self ∧
         collection_threshold_reached self = true ∧
         error_count (collection self)
         = max_participants (synchronized_data self)) ∧
  (∀ sd, (end_block loads is_majority_possible self).2
         = Return (Some (sd, NO_MAJORITY)) ↔
         sd = synchronized_data self ∧
         collection_threshold_reached self = false ∧
         is_majority_possible (collection self)
           (nb_participants (synchronized_data self)) = false) ∧
  ((end_block loads is_majority_possible self).2 = Return None ↔
   collection_threshold_reached self = false ∧
   is_majority_possible (collection self)
     (nb_participants (synchronized_data self)) = true).
Proof.
  destruct (collection_threshold_reached self) eqn:Hthr.
  - rewrite end_block_reached by done. case_bool_decide as Hec.
    + split_and!; [intros sd|intros sd|]; simpl.
      * split; [by intros [= <-]|by intros (-> & _ & _)].
      * split; [done|by intros (_ & [=] & _)].
      * split; [done|by intros ([=] & _)].
    + destruct (payloads_json loads _); simpl;
        (split_and!; [intros sd|intros sd|]);
        (split; [done|]); try (by intros (_ & _ & ?));
        try (by intros (_ & [=] & _)); by intros ([=] & _).
  - rewrite end_block_pending by done.
    destruct (is_majority_possible _ _); simpl;
      (split_and!; [intros sd|intros sd|]).
    + split; [done|by intros (_ & [=] & _)].
    + split; [done|by intros (_ & _ & [=])].
    + done.
    + split; [done|by intros (_ & [=] & _)].
    + split; [by intros [= <-]|by intros (-> & _ & _)].
    + split; [done|by intros (_ & [=])].
Qed.

(** X8: whenever [end_block] returns [DONE], every participant had
    submitted, the error count differed from [max_participants], and the
    snapshot returned has a [finished_task_data] made of the [request_id]
    of the first payload of [ok_payloads] and of the [task_result] of each
    of its payloads, in order; that list is never empty. *)
Theorem end_block_done_inv self sd :
  (end_block loads is_majority_possible self).2 = Return (Some (sd, DONE)) →
  collection_threshold_reached self = true ∧
  error_count (collection self) ≠ max_participants (synchronized_data self) ∧
  ∃ kv request_id task_result,
    head (count_and_split (collection self)).2 = Some kv ∧
    field loads "request_id" kv.2 = Return request_id ∧
    Forall2 (λ f r, field loads "task_result" f = Return r)
      (Dict.values (count_and_split (collection self)).2) task_result ∧
    task_result ≠ [] ∧
    finished_task_data sd =
      Return (VDict [("request_id", request_id);
                     ("task_result", VList task_result)]).
Proof.
  destruct (collection_threshold_reached self) eqn:Hthr.
  - rewrite end_block_reached by done. case_bool_decide as Hec; [done|].
    destruct (payloads_json loads _) as [pj|e] eqn:Hpj; [|done].
    intros [= <-]. split_and!; [done|done|].
    apply payloads_json_Return_inv in Hpj
      as (kv & rid & results & Hhead & Hrid & Hres & ->).
    exists kv, rid, results. split_and!; [done|done|done| |].
    + intros ->. apply Forall2_nil_inv_r in Hres.
      destruct (count_and_split (collection self)).2; done.
    + unfold finished_task_data, get_strict. cbn [db].
      by rewrite lookup_insert_eq.
  - rewrite end_block_pending by done.
    by destruct (is_majority_possible _ _).
Qed.

(** X9: every event [end_block] returns has an entry in the row of
    [TaskExecutionRound]: [NO_MAJORITY] leads back to [TaskExecutionRound],
    the other two lead to a final state, from which no event leads on. *)
Theorem end_block_event_transition self sd ev :
  (end_block loads is_majority_possible self).2 = Return (Some (sd, ev)) →
  ∃ s, TaskExecutionAbciApp.next_round
         TaskExecutionAbciApp.initial_round_cls ev = Some s ∧
       ((ev = NO_MAJORITY ∧ s = TaskExecutionRound)
        ∨ (ev ≠ NO_MAJORITY ∧ s ∈ TaskExecutionAbciApp.final_states ∧
           ∀ e, TaskExecutionAbciApp.next_round s e = None)).
Proof.
  intros Hev.
  assert (ev ≠ ROUND_TIMEOUT) as Hto.
  { intros ->. revert Hev.
    destruct (collection_threshold_reached self) eqn:Hthr.
    - rewrite end_block_reached by done. case_bool_decide; [done|].
      by destruct (payloads_json loads _).
    - rewrite end_block_pending by done.
      by destruct (is_majority_possible _ _). }
  unfold TaskExecutionAbciApp.final_states.
  destruct ev; [done| | |].
  - exists TaskExecutionRound. split; [done|]. by left.
  - exists FinishedTaskExecutionRound. split; [done|]. right.
    split_and!; [done| |by intros []]. apply elem_of_cons. by left.
  - exists FinishedTaskExecutionWithErrorRound. split; [done|]. right.
    split_and!; [done| |by intros []].
    apply elem_of_cons. right. apply elem_of_cons. by left.
Qed.

(** X10: the result of a [DONE] round does not depend on the error
    payloads. Two rounds with distinct senders whose payloads other than
    errors are the same, in the same order, get the same
    [finished_task_data] once the second one is past the threshold and the
    guard on the error count. *)
Theorem end_block_done_ignores_errors self other sd :
  Dict.wf (collection self) →
  Dict.wf (collection other) →
  collection_threshold_reached other = true →
  error_count (collection other) ≠ max_participants (synchronized_data other) →
  ok_entries (collection other) = ok_entries (collection self) →
  (end_block loads is_majority_possible self).2 = Return (Some (sd, DONE)) →
  ∃ sd',
    (end_block loads is_majority_possible other).2
    = Return (Some (sd', DONE)) ∧
    finished_task_data sd' = finished_task_data sd.
Proof.
  intros Hwf Hwf' Hthr' Hne' Hok.
  rewrite (end_block_reached _ _ other), bool_decide_eq_false_2,
    count_and_split_ok, Hok by done.
  destruct (collection_threshold_reached self) eqn:Hthr.
  - rewrite end_block_reached by done. case_bool_decide as Hec; [done|].
    rewrite count_and_split_ok by done.
    destruct (payloads_json loads _) as [pj|e]; [|done].
    intros [= <-]. eexists. split; [reflexivity|].
    unfold finished_task_data, get_strict. cbn [db update snd foldl fst].
    by rewrite !lookup_insert_eq.
  - rewrite end_block_pending by done.
    by destruct (is_majority_possible _ _).
Qed.

(** X13: on an empty collection nothing is aggregated. With no participant
    expected the threshold is reached at once, and [end_block] returns
    [ERROR] if [max_participants] is 0 too and raises [IndexError] if not;
    with participants expected it defers to [is_majority_possible]. *)
Theorem end_block_empty_collection self :
  collection self = [] →
  (end_block loads is_majority_possible self).2 =
    if bool_decide (nb_participants (synchronized_data self) = 0)
    then if bool_decide (max_participants (synchronized_data self) = 0)
         then Return (Some (synchronized_data self, ERROR))
         else Raise IndexError
    else if is_majority_possible [] (nb_participants (synchronized_data self))
         then Return None
         else Return (Some (synchronized_data self, NO_MAJORITY)).
Proof.
  intros Hnil. case_bool_decide as Hnb.
  - assert (collection_threshold_reached self = true) as Hthr.
    { apply threshold_reached_iff. by rewrite Hnil, Hnb. }
    rewrite end_block_reached, Hnil by done. unfold error_count. simpl.
    case_bool_decide as H0; case_bool_decide as H1; try done; lia.
  - rewrite end_block_pending, Hnil.
    + by destruct (is_majority_possible _ _).
    + apply threshold_not_reached. rewrite Hnil. simpl. lia.
Qed.

End OutcomeFacts.

(** ** Further properties of the application *)

(** X11: the transition table is closed and complete. Every round has a
    row with distinct events; every round a row leads to has a row; the
    row of [TaskExecutionRound] has an entry for each of the four events;
    the initial round is an initial state and no final state; each final
    state is reached from it by one event; and the database conditions are
    declared for the initial and for the final states. *)
Theorem transition_function_well_formed :
  (∀ s, ∃ row, assoc s TaskExecutionAbciApp.transition_function = Some row ∧
               NoDup (row.*1)) ∧
  NoDup (TaskExecutionAbciApp.transition_function.*1) ∧
  (∀ s e s', TaskExecutionAbciApp.next_round s e = Some s' →
             is_Some (assoc s' TaskExecutionAbciApp.transition_function)) ∧
  (∀ e, is_Some (TaskExecutionAbciApp.next_round TaskExecutionRound e)) ∧
  TaskExecutionAbciApp.initial_round_cls ∈ TaskExecutionAbciApp.initial_states ∧
  (TaskExecutionAbciApp.initial_round_cls ∉ TaskExecutionAbciApp.final_states) ∧
  (∀ s, s ∈ TaskExecutionAbciApp.final_states →
        ∃ e, TaskExecutionAbciApp.next_round
               TaskExecutionAbciApp.initial_round_cls e = Some s) ∧
  (TaskExecutionAbciApp.db_pre_conditions.*1)
  = TaskExecutionAbciApp.initial_states ∧
  (TaskExecutionAbciApp.db_post_conditions.*1)
  = TaskExecutionAbciApp.final_states.
Proof.
  split_and!; try done.
  - intros []; eexists; (split; [reflexivity|]);
      by apply (bool_decide_unpack _).
  - by apply (bool_decide_unpack _).
  - intros s e s' _. by destruct s'; eexists.
  - intros []; by eexists.
  - apply elem_of_cons. by left.
  - by apply (bool_decide_unpack _).
  - unfold TaskExecutionAbciApp.final_states. intros s.
    rewrite !elem_of_cons, elem_of_nil. intros [->|[->|[]]].
    + by exists DONE.
    + by exists ERROR.
Qed.

(** X12: the four events have four different values: two events with the
    same value are the same event. *)
Theorem Event_value_inj e1 e2 :
  Event_value e1 = Event_value e2 ↔ e1 = e2.
Proof.
  split; [|by intros ->]. by destruct e1, e2.
Qed.

(** ** The further properties at the example rounds *)

Lemma count_and_split_partition_witness :
  count_and_split (collection round_three_results)
  = (1, [ result_entry "agent_0" "r1" "ok1";
          result_entry "agent_2" "r1" "ok2";
          result_entry "agent_3" "r1" "ok3" ]) ∧
  (count_and_split (collection round_three_results)).1
  + length (count_and_split (collection round_three_results)).2 = 4.
Proof.
  destruct (count_and_split_partition (collection round_three_results))
    as [Heq Hlen].
  - apply (bool_decide_unpack _). vm_compute. exact I.
  - split; [|exact Hlen]. rewrite Heq. vm_compute. reflexivity.
Defined.

Lemma end_block_raise_causes_witness :
  collection_threshold_reached round_not_an_object = true ∧
  error_count (collection round_not_an_object) ≠ 2 ∧
  (((count_and_split (collection round_not_an_object)).2 = []
    ∧ TypeError = IndexError)
   ∨ (∃ kv, head (count_and_split (collection round_not_an_object)).2
            = Some kv ∧
            field_failure JsonFragment.loads "request_id" kv.2 TypeError)
   ∨ (∃ kv, kv ∈ (count_and_split (collection round_not_an_object)).2 ∧
            field_failure JsonFragment.loads "task_result" kv.2 TypeError)).
Proof.
  apply (end_block_raise_causes JsonFragment.loads quorum_possible
           round_not_an_object TypeError).
  vm_compute. reflexivity.
Defined.

Lemma end_block_request_id_first_witness :
  end_block JsonFragment.loads quorum_possible round_first_without_request_id
  = (round_first_without_request_id, Raise (KeyError "request_id")).
Proof.
  apply (end_block_request_id_first JsonFragment.loads quorum_possible
           round_first_without_request_id
           (entry "agent_0" (JsonFragment.envelope [("task_result", "ok1")]))).
  - vm_compute. reflexivity.
  - vm_compute. lia.
  - vm_compute. reflexivity.
  - vm_compute. reflexivity.
Defined.

Lemma end_block_task_result_leftmost_witness :
  end_block JsonFragment.loads quorum_possible round_not_an_object
  = (round_not_an_object, Raise TypeError).
Proof.
  apply (end_block_task_result_leftmost JsonFragment.loads quorum_possible
           round_not_an_object
           (result_entry "agent_0" "r1" "ok1") (VStr "r1")
           [result_entry "agent_0" "r1" "ok1"]
           (entry "agent_1" "[1, 2]") []).
  - vm_compute. reflexivity.
  - vm_compute. lia.
  - vm_compute. reflexivity.
  - reflexivity.
  - vm_compute. reflexivity.
  - repeat constructor. vm_compute. tauto.
  - vm_compute. reflexivity.
Defined.

Lemma end_block_done_inv_witness :
  collection_threshold_reached round_three_results = true ∧
  error_count (collection round_three_results) ≠ 4 ∧
  ∃ kv request_id task_result,
    head (count_and_split (collection round_three_results)).2 = Some kv ∧
    field JsonFragment.loads "request_id" kv.2 = Return request_id ∧
    Forall2 (λ f r, field JsonFragment.loads "task_result" f = Return r)
      (Dict.values (count_and_split (collection round_three_results)).2)
      task_result ∧
    task_result ≠ [] ∧
    finished_task_data snapshot_three_results =
      Return (VDict [("request_id", request_id);
                     ("task_result", VList task_result)]).
Proof.
  apply (end_block_done_inv JsonFragment.loads quorum_possible
           round_three_results snapshot_three_results).
  vm_compute. reflexivity.
Defined.

Lemma end_block_event_transition_witness :
  ∃ s, TaskExecutionAbciApp.next_round
         TaskExecutionAbciApp.initial_round_cls ERROR = Some s ∧
       ((ERROR = NO_MAJORITY ∧ s = TaskExecutionRound)
        ∨ (ERROR ≠ NO_MAJORITY ∧ s ∈ TaskExecutionAbciApp.final_states ∧
           ∀ e, TaskExecutionAbciApp.next_round s e = None)).
Proof.
  apply (end_block_event_transition JsonFragment.loads quorum_possible
           round_all_errors (snapshot 4 4) ERROR).
  vm_compute. reflexivity.
Defined.

Lemma end_block_done_ignores_errors_witness :
  ∃ sd,
    (end_block JsonFragment.loads quorum_possible
       round_three_results_error_last).2 = Return (Some (sd, DONE)) ∧
    finished_task_data sd = finished_task_data snapshot_three_results.
Proof.
  apply (end_block_done_ignores_errors JsonFragment.loads quorum_possible
           round_three_results round_three_results_error_last
           snapshot_three_results).
  - apply (bool_decide_unpack _). vm_compute. exact I.
  - apply (bool_decide_unpack _). vm_compute. exact I.
  - vm_compute. reflexivity.
  - vm_compute. lia.
  - vm_compute. reflexivity.
  - vm_compute. reflexivity.
Defined.

Lemma end_block_empty_collection_witness :
  (end_block JsonFragment.loads quorum_possible
     {| collection := []; synchronized_data := snapshot 4 0 |}).2
  = Raise IndexError.
Proof.
  apply (end_block_empty_collection JsonFragment.loads quorum_possible
           {| collection := []; synchronized_data := snapshot 4 0 |}).
  reflexivity.
Defined.
